(** * messier-systems: Spotify PKCE login and playback control

    A shallow embedding of [utils/spotifyAuth.ts] (the PKCE authorization-code
    flow) and of the playback handlers of the terminal window component in
    [page.tsx], together with the properties the specification states about
    them.

    The browser is modelled by an explicit [World]: the [localStorage] map,
    the wall clock, the number of [Math.random()] draws made so far, and the
    trace of observable events (console output, storage writes, network
    requests).  JavaScript exceptions are modelled by a [Completion] type and
    [try { } catch { }] by [try_catch].  The outside world (random source,
    token endpoint, SHA-256 digest, environment variables) is a parameter. *)

From Stdlib Require Import ZArith QArith Qround String Ascii List Lia Bool.
From Stdlib Require Import DecimalString.
From stdpp Require Import base option gmap strings.
Import ListNotations.

Local Open Scope string_scope.
Local Open Scope Z_scope.
Local Open Scope list_scope.

(** ** JavaScript values used by the code *)

Module Js.

(** [if (x)] on a value of type [string | null]: [null] and the empty
    string are falsy. *)
Definition truthy (x : option string) : bool :=
  match x with
  | Some s => negb (String.eqb s "")
  | None => false
  end.

(** [a === b] on values of type [string | null]. *)
Definition strict_eq (a b : option string) : bool :=
  match a, b with
  | Some x, Some y => String.eqb x y
  | None, None => true
  | _, _ => false
  end.

(** [if (x) { yes } else { no }], where [yes] uses [x] as a string. *)
Definition if_truthy {A} (x : option string) (yes : string -> A) (no : A) : A :=
  match x with
  | Some s => if String.eqb s "" then no else yes s
  | None => no
  end.

(** [x || d] on a value of type [number | undefined]. *)
Definition or_num (x : option Z) (d : Z) : Z :=
  match x with
  | Some n => if n =? 0 then d else n
  | None => d
  end.

(** A JavaScript number that holds an integer or [NaN]. *)
Inductive Number := Int (n : Z) | NaN.

(** [a + b] and [a % b]; the remainder takes the sign of the dividend and
    [x % 0] is [NaN]. *)
Definition add (a b : Number) : Number :=
  match a, b with
  | Int x, Int y => Int (x + y)
  | _, _ => NaN
  end.

Definition sub (a b : Number) : Number :=
  match a, b with
  | Int x, Int y => Int (x - y)
  | _, _ => NaN
  end.

Definition rem (a b : Number) : Number :=
  match a, b with
  | Int x, Int y => if y =? 0 then NaN else Int (Z.rem x y)
  | _, _ => NaN
  end.

(** [s.charAt(i)]: the one-character string at [i], or the empty string
    when [i] is out of range. *)
Definition charAt (s : string) (i : Z) : string :=
  if i <? 0 then ""
  else match String.get (Z.to_nat i) s with
       | Some c => String c ""
       | None => ""
       end.

(** [n.toString()] for an integer below 1e21. *)
Definition toString (n : Z) : string := NilZero.string_of_int (Z.to_int n).

(** [Math.floor(r * n)], with the value [r] of [Math.random()] taken as a
    rational and the product taken exactly. *)
Definition floor_mul (r : Q) (n : Z) : Z := Qfloor (r * inject_Z n).

End Js.

(** ** The browser world *)

(** Requests to the provider's Web API made through [spotifyApi]. *)
Inductive ApiCall :=
| Play (uris : list string) (device_id : option string)
| Resume                                        (* [spotifyApi.play()] *)
| Pause
| SkipToNext
| SkipToPrevious
| SetVolume (percent : Z)
| GetMyDevices
| TransferMyPlayback (device_ids : list (option string)) (play : bool).

(** Observable effects, in the order the code performs them. *)
Inductive Event :=
| ConsoleLog (msg : string)
| ConsoleError (msg : string)
| StorageSet (key value : string)
| StorageRemove (key : string)
| ApiSetAccessToken (token : string)
| Fetch (url body : string)
| Api (call : ApiCall).

Record World := mkWorld {
  localStorage : gmap string string;
  clock : Z;                  (* Date.now(), epoch milliseconds *)
  draws : nat;                (* Math.random() calls made so far *)
  events : list Event         (* oldest first *)
}.

Definition with_storage (f : gmap string string -> gmap string string) (w : World) : World :=
  mkWorld (f (localStorage w)) (clock w) (draws w) (events w).

Definition emit (e : Event) (w : World) : World :=
  mkWorld (localStorage w) (clock w) (draws w) (events w ++ [e]).

Definition with_clock (t : Z) (w : World) : World :=
  mkWorld (localStorage w) t (draws w) (events w).

(** What a JavaScript statement list evaluates to. *)
Inductive JsError := NetworkError | SyntaxError | TypeError.

Inductive Completion (A : Type) :=
| Normal (a : A)
| Throw (e : JsError).
Arguments Normal {A} a.
Arguments Throw {A} e.

Definition M (A : Type) : Type := World -> Completion A * World.

#[global] Instance M_ret : MRet M := fun A a w => (Normal a, w).
#[global] Instance M_bind : MBind M := fun A B f m w =>
  match m w with
  | (Normal a, w') => f a w'
  | (Throw e, w') => (Throw e, w')
  end.

Definition throw {A} (e : JsError) : M A := fun w => (Throw e, w).

(** [try { body } catch (err) { handler }] *)
Definition try_catch {A} (body : M A) (handler : JsError -> M A) : M A := fun w =>
  match body w with
  | (Normal a, w') => (Normal a, w')
  | (Throw e, w') => handler e w'
  end.

Definition console_log (msg : string) : M unit := fun w => (Normal tt, emit (ConsoleLog msg) w).
Definition console_error (msg : string) : M unit := fun w => (Normal tt, emit (ConsoleError msg) w).

Definition localStorage_getItem (key : string) : M (option string) := fun w =>
  (Normal (localStorage w !! key), w).
Definition localStorage_setItem (key value : string) : M unit := fun w =>
  (Normal tt, emit (StorageSet key value) (with_storage (insert key value) w)).
Definition localStorage_removeItem (key : string) : M unit := fun w =>
  (Normal tt, emit (StorageRemove key) (with_storage (delete key) w)).

Definition Date_now : M Z := fun w => (Normal (clock w), w).

(** ** [URLSearchParams] *)

Module Url.

(** A parameter set is the ordered list of its name/value pairs. *)
Definition URLSearchParams : Type := list (string * string).

(** [params.get(name)]: the first value stored under [name], else [null]. *)
Fixpoint get (params : URLSearchParams) (name : string) : option string :=
  match params with
  | [] => None
  | (k, v) :: rest => if String.eqb k name then Some v else get rest name
  end.

Definition hex_digit (n : N) : ascii :=
  match String.get (N.to_nat n) "0123456789ABCDEF" with
  | Some c => c
  | None => "0"%char
  end.

Definition in_range (lo hi : N) (c : ascii) : bool :=
  ((lo <=? N_of_ascii c) && (N_of_ascii c <=? hi))%N.

Definition alphanumeric (c : ascii) : bool :=
  in_range 48 57 c || in_range 65 90 c || in_range 97 122 c.

(** The application/x-www-form-urlencoded byte serializer: a space becomes
    [+], alphanumerics and [*-._] stay, every other byte is
    percent-encoded. *)
Definition encode_byte (c : ascii) : string :=
  if Ascii.eqb c " " then "+"
  else if alphanumeric c || Ascii.eqb c "*" || Ascii.eqb c "-"
          || Ascii.eqb c "." || Ascii.eqb c "_"
  then String c ""
  else String "%" (String (hex_digit (N_of_ascii c / 16))
                  (String (hex_digit (N_of_ascii c mod 16)) "")).

Fixpoint encode (s : string) : string :=
  match s with
  | EmptyString => ""
  | String c rest => encode_byte c +:+ encode rest
  end.

(** [params.toString()] *)
Fixpoint toString (params : URLSearchParams) : string :=
  match params with
  | [] => ""
  | [(k, v)] => encode k +:+ "=" +:+ encode v
  | (k, v) :: rest => encode k +:+ "=" +:+ encode v +:+ "&" +:+ toString rest
  end.

(** [list.join(sep)] *)
Fixpoint join (sep : string) (l : list string) : string :=
  match l with
  | [] => ""
  | [x] => x
  | x :: rest => x +:+ sep +:+ join sep rest
  end.

End Url.

(** ** Base64 as the code builds it, and base64url as RFC 4648 defines it *)

Module Base64.

Definition alphabet : string :=
  "ABCDEFGHIJKLMNOPQRSTUVWXYZabcdefghijklmnopqrstuvwxyz0123456789+/".

Definition url_alphabet : string :=
  "ABCDEFGHIJKLMNOPQRSTUVWXYZabcdefghijklmnopqrstuvwxyz0123456789-_".

Definition digit (table : string) (n : N) : ascii :=
  match String.get (N.to_nat (n mod 64)) table with
  | Some c => c
  | None => "="%char
  end.

(** The four sextets of a 24-bit group. *)
Definition sextet (k : N) (a b c : ascii) : N :=
  N.shiftr (N_of_ascii a * 65536 + N_of_ascii b * 256 + N_of_ascii c) (6 * k).

(** [btoa(binary)]: standard alphabet, padded with [=]. *)
Fixpoint btoa (s : string) : string :=
  match s with
  | EmptyString => ""
  | String a EmptyString =>
      String (digit alphabet (sextet 3 a zero zero))
     (String (digit alphabet (sextet 2 a zero zero)) "==")
  | String a (String b EmptyString) =>
      String (digit alphabet (sextet 3 a b zero))
     (String (digit alphabet (sextet 2 a b zero))
     (String (digit alphabet (sextet 1 a b zero)) "="))
  | String a (String b (String c rest)) =>
      String (digit alphabet (sextet 3 a b c))
     (String (digit alphabet (sextet 2 a b c))
     (String (digit alphabet (sextet 1 a b c))
     (String (digit alphabet (sextet 0 a b c)) (btoa rest))))
  end.

(** [s.replace(/x/g, y)] for single characters [x] and [y]. *)
Fixpoint replace_all (x y : ascii) (s : string) : string :=
  match s with
  | EmptyString => ""
  | String c rest => String (if Ascii.eqb c x then y else c) (replace_all x y rest)
  end.

(** What the two replacements of [generateCodeChallenge] do to one
    character. *)
Definition url_safe (c : ascii) : ascii :=
  let c := if Ascii.eqb c "+" then "-"%char else c in
  if Ascii.eqb c "/" then "_"%char else c.

(** [s.replace(/=+$/, '')]: drop the run of [=] at the end of [s]. *)
Fixpoint strip_padding (s : string) : string :=
  match s with
  | EmptyString => ""
  | String c rest =>
      match strip_padding rest with
      | EmptyString => if Ascii.eqb c "=" then "" else String c ""
      | stripped => String c stripped
      end
  end.

(** Base64url without padding, written from RFC 4648 section 5 and RFC 7636
    appendix A: the URL-safe alphabet, and no [=] emitted at all. *)
Fixpoint base64url_nopad (s : string) : string :=
  match s with
  | EmptyString => ""
  | String a EmptyString =>
      String (digit url_alphabet (sextet 3 a zero zero))
     (String (digit url_alphabet (sextet 2 a zero zero)) "")
  | String a (String b EmptyString) =>
      String (digit url_alphabet (sextet 3 a b zero))
     (String (digit url_alphabet (sextet 2 a b zero))
     (String (digit url_alphabet (sextet 1 a b zero)) ""))
  | String a (String b (String c rest)) =>
      String (digit url_alphabet (sextet 3 a b c))
     (String (digit url_alphabet (sextet 2 a b c))
     (String (digit url_alphabet (sextet 1 a b c))
     (String (digit url_alphabet (sextet 0 a b c)) (base64url_nopad rest))))
  end.

End Base64.

(** ** [utils/spotifyAuth.ts] *)

(** The body of a token endpoint response as [response.json()] sees it. *)
Inductive JsonBody :=
| JsonInvalid                                   (* not JSON: json() rejects *)
| JsonNull                                      (* the JSON value null *)
| JsonObject (access_token : option string) (expires_in : option Z).

Record Response := mkResponse { ok : bool; body : JsonBody }.

(** What [await fetch(...)] produces. *)
Inductive FetchResult :=
| FetchRejected                                 (* network failure: fetch rejects *)
| FetchResolved (response : Response).

(** The member reads [data.access_token] and [data.expires_in]. *)
Definition access_token_of (data : JsonBody) : option string :=
  match data with
  | JsonObject tok _ => tok
  | _ => None
  end.

Definition expires_in_of (data : JsonBody) : option Z :=
  match data with
  | JsonObject _ e => e
  | _ => None
  end.

Module SpotifyAuth.
Section Auth.

(** [process.env.NEXT_PUBLIC_SPOTIFY_CLIENT_ID] *)
Variable env_client_id : option string.
(** The value of the [n]-th call of [Math.random()]. *)
Variable random : nat -> Q.
(** [crypto.subtle.digest('SHA-256', bytes)], taken as available. *)
Variable sha256 : string -> string.
(** The provider's token endpoint: the answer to a POST of [body] to [url]. *)
Variable token_endpoint : string -> string -> FetchResult.

Definition clientId : string :=
  match env_client_id with
  | Some s => if String.eqb s "" then "8c6c0ff17bee46ea9aec45c4d095cfcb" else s
  | None => "8c6c0ff17bee46ea9aec45c4d095cfcb"
  end.

Definition redirectUri : string := "http://127.0.0.1:3000/callback".

Definition scopes : list string :=
  [ "streaming";
    "user-read-email";
    "user-read-private";
    "user-read-playback-state";
    "user-modify-playback-state";
    "user-read-currently-playing";
    "playlist-read-private";
    "playlist-read-collaborative";
    "app-remote-control" ].

Definition Math_random : M Q := fun w =>
  (Normal (random (draws w)),
   mkWorld (localStorage w) (clock w) (S (draws w)) (events w)).

Definition fetch (url body : string) : M Response := fun w =>
  match token_endpoint url body with
  | FetchRejected => (Throw NetworkError, emit (Fetch url body) w)
  | FetchResolved r => (Normal r, emit (Fetch url body) w)
  end.

Definition spotifyApi_setAccessToken (token : string) : M unit := fun w =>
  (Normal tt, emit (ApiSetAccessToken token) w).

(** [await response.json()] *)
Definition response_json (body : JsonBody) : M JsonBody :=
  match body with
  | JsonInvalid => throw SyntaxError
  | _ => mret body
  end.

(** [data.access_token]: reading a member of [null] throws. *)
Definition member_access_token (data : JsonBody) : M (option string) :=
  match data with
  | JsonNull => throw TypeError
  | _ => mret (access_token_of data)
  end.

(** The loop shared by [generateCodeVerifier] and [generateRandomString]:
    [remaining] more iterations of
    [text += possible.charAt(Math.floor(Math.random() * possible.length))]. *)
Fixpoint random_text (possible : string) (remaining : nat) (text : string) : M string :=
  match remaining with
  | O => mret text
  | S k =>
      r ← Math_random;
      random_text possible k
        (text +:+ Js.charAt possible (Js.floor_mul r (Z.of_nat (String.length possible))))
  end.

(** The character the loop appends when [Math.random()] is at its [k]-th
    value, and the text [count] iterations append from draw [start] on. *)
Definition pick (possible : string) (k : nat) : string :=
  Js.charAt possible (Js.floor_mul (random k) (Z.of_nat (String.length possible))).

Fixpoint drawn (possible : string) (start count : nat) : string :=
  match count with
  | O => ""
  | S k => pick possible start +:+ drawn possible (S start) k
  end.

Definition verifier_charset : string :=
  "ABCDEFGHIJKLMNOPQRSTUVWXYZabcdefghijklmnopqrstuvwxyz0123456789-._~".

Definition state_charset : string :=
  "ABCDEFGHIJKLMNOPQRSTUVWXYZabcdefghijklmnopqrstuvwxyz0123456789".

Definition generateCodeVerifier (length : nat) : M string :=
  random_text verifier_charset length "".

Definition generateRandomString (length : nat) : M string :=
  random_text state_charset length "".

Definition generateCodeChallenge (codeVerifier : string) : string :=
  Base64.strip_padding
    (Base64.replace_all "/" "_"
      (Base64.replace_all "+" "-" (Base64.btoa (sha256 codeVerifier)))).

Definition authorize_params (state codeChallenge : string) : Url.URLSearchParams :=
  [ ("client_id", clientId);
    ("response_type", "code");
    ("redirect_uri", redirectUri);
    ("scope", Url.join " " scopes);
    ("show_dialog", "true");
    ("state", state);
    ("code_challenge_method", "S256");
    ("code_challenge", codeChallenge) ].

Definition getSpotifyLoginUrl : M string :=
  console_log "Using client ID:";;
  console_log "Using redirect URI:";;
  codeVerifier ← generateCodeVerifier 128;
  let codeChallenge := generateCodeChallenge codeVerifier in
  localStorage_setItem "spotify_code_verifier" codeVerifier;;
  state ← generateRandomString 16;
  localStorage_setItem "spotify_auth_state" state;;
  let params := authorize_params state codeChallenge in
  let url := "https://accounts.spotify.com/authorize?" +:+ Url.toString params in
  console_log "Authorization URL:";;
  mret url.

Definition tokenUrl : string := "https://accounts.spotify.com/api/token".

Definition token_payload (code codeVerifier : string) : Url.URLSearchParams :=
  [ ("client_id", clientId);
    ("grant_type", "authorization_code");
    ("code", code);
    ("redirect_uri", redirectUri);
    ("code_verifier", codeVerifier) ].

Definition getAccessToken (code : string) : M (option string) :=
  try_catch
    (codeVerifier ← localStorage_getItem "spotify_code_verifier";
     Js.if_truthy codeVerifier
       (fun codeVerifier =>
          console_log "Exchanging code for token with code verifier";;
          let payload := token_payload code codeVerifier in
          response ← fetch tokenUrl (Url.toString payload);
          if negb (ok response) then
            errorData ← response_json (body response);
            console_error "Token exchange error:";;
            mret None
          else
            data ← response_json (body response);
            accessToken ← member_access_token data;
            Js.if_truthy accessToken
              (fun accessToken =>
                 console_log "Successfully obtained access token";;
                 spotifyApi_setAccessToken accessToken;;
                 let expiresIn := Js.or_num (expires_in_of data) 3600 in
                 now ← Date_now;
                 let expirationTime := now + expiresIn * 1000 in
                 localStorage_setItem "spotify_token_expiration" (Js.toString expirationTime);;
                 localStorage_setItem "spotify_access_token" accessToken;;
                 mret (Some accessToken))
              (mret None))
       (console_error "No code verifier found in localStorage";;
        mret None))
    (fun err =>
       console_error "Error exchanging code for token:";;
       mret None).

Definition handleCallback (urlSearchParams : Url.URLSearchParams) : M (option string) :=
  try_catch
    (let code := Url.get urlSearchParams "code" in
     let error := Url.get urlSearchParams "error" in
     let state := Url.get urlSearchParams "state" in
     storedState ← localStorage_getItem "spotify_auth_state";
     console_log "Handling callback with code:";;
     localStorage_removeItem "spotify_auth_state";;
     if Js.strict_eq state None || negb (Js.strict_eq state storedState) then
       console_error "State mismatch - possible CSRF attack";;
       console_error "Received state:";;
       console_error "Stored state:";;
       mret None
     else if Js.truthy error then
       console_error "Spotify authentication error:";;
       mret None
     else
       Js.if_truthy code
         (fun code => getAccessToken code)
         (mret None))
    (fun err =>
       console_error "Error handling callback:";;
       mret None).

(** The full success path of the exchange of [code] in world [w]: a
    non-empty stored verifier, a fulfilled request with a success status,
    and a JSON object with a non-empty [access_token]. *)
Definition exchange_succeeds (code : string) (w : World)
    (token : string) (expires_in : option Z) : Prop :=
  exists verifier,
    localStorage w !! "spotify_code_verifier" = Some verifier
    /\ verifier <> ""
    /\ token_endpoint tokenUrl (Url.toString (token_payload code verifier))
       = FetchResolved (mkResponse true (JsonObject (Some token) expires_in))
    /\ token <> "".

(** The world in which [handleCallback] makes its checks: the log line is
    written and the stored CSRF state is already removed. *)
Definition after_removal (w : World) : World :=
  emit (StorageRemove "spotify_auth_state")
    (with_storage (delete "spotify_auth_state")
      (emit (ConsoleLog "Handling callback with code:") w)).

(** The callback is accepted up to the exchange of [code]: the returned
    state is the stored one, no non-empty [error] came back, and a
    non-empty [code] did. *)
Definition callback_accepts (params : Url.URLSearchParams) (w : World) (code : string) : Prop :=
  Url.get params "state" <> None
  /\ Url.get params "state" = localStorage w !! "spotify_auth_state"
  /\ Js.truthy (Url.get params "error") = false
  /\ Url.get params "code" = Some code
  /\ code <> "".

End Auth.
End SpotifyAuth.

(** ** The music window of [page.tsx] *)

Record Track := mkTrack { track_id : string; track_name : string }.

(** An entry of the provider's device list; [id] may be [null]. *)
Record Device := mkDevice { id : option string; is_active : bool }.

(** What [player.getCurrentState()] settles to: rejected, or a state whose
    [device.id] is [device] ([None] when the state, its device or the id is
    missing). *)
Inductive PlayerState :=
| StateRejected
| StateResolved (device : option string).

(** The component state, the module-level globals and the browser world. *)
Record Session := mkSession {
  world : World;
  player : bool;                          (* [player] is not null *)
  isPlaying : bool;
  currentSongIndex : Js.Number;
  shuffledPlaylist : list Track;
  volume : Z;
  globalIsPlaying : bool;
  globalCurrentSongIndex : Js.Number
}.

Module Playback.
Section Handlers.

(** The provider: how a transport request settles given the requests made
    before it ([None]: fulfilled, [Some status]: rejected with that HTTP
    status), and how [getMyDevices] settles ([None]: rejected). *)
Variable transport : list ApiCall -> ApiCall -> option Z.
Variable device_list : list ApiCall -> option (list Device).
Variable player_state : PlayerState.

Fixpoint api_calls (trace : list Event) : list ApiCall :=
  match trace with
  | [] => []
  | Api c :: rest => c :: api_calls rest
  | _ :: rest => api_calls rest
  end.

Definition on_world (f : World -> World) (s : Session) : Session :=
  mkSession (f (world s)) (player s) (isPlaying s) (currentSongIndex s)
    (shuffledPlaylist s) (volume s) (globalIsPlaying s) (globalCurrentSongIndex s).

Definition setIsPlaying (b : bool) (s : Session) : Session :=
  mkSession (world s) (player s) b (currentSongIndex s)
    (shuffledPlaylist s) (volume s) (globalIsPlaying s) (globalCurrentSongIndex s).

Definition setCurrentSongIndex (f : Js.Number -> Js.Number) (s : Session) : Session :=
  mkSession (world s) (player s) (isPlaying s) (f (currentSongIndex s))
    (shuffledPlaylist s) (volume s) (globalIsPlaying s) (globalCurrentSongIndex s).

Definition setVolume (v : Z) (s : Session) : Session :=
  mkSession (world s) (player s) (isPlaying s) (currentSongIndex s)
    (shuffledPlaylist s) v (globalIsPlaying s) (globalCurrentSongIndex s).

Definition set_globalIsPlaying (b : bool) (s : Session) : Session :=
  mkSession (world s) (player s) (isPlaying s) (currentSongIndex s)
    (shuffledPlaylist s) (volume s) b (globalCurrentSongIndex s).

Definition set_globalCurrentSongIndex (n : Js.Number) (s : Session) : Session :=
  mkSession (world s) (player s) (isPlaying s) (currentSongIndex s)
    (shuffledPlaylist s) (volume s) (globalIsPlaying s) n.

Definition log (msg : string) : Session -> Session := on_world (emit (ConsoleLog msg)).
Definition error (msg : string) : Session -> Session := on_world (emit (ConsoleError msg)).
Definition setAccessToken (token : string) : Session -> Session :=
  on_world (emit (ApiSetAccessToken token)).
Definition getItem (key : string) (s : Session) : option string :=
  localStorage (world s) !! key.

(** The requests made to the provider so far, oldest first. *)
Definition calls (s : Session) : list ApiCall := api_calls (events (world s)).

(** A transport request: record it, and ask the provider how it settles. *)
Definition request (c : ApiCall) (s : Session) : option Z * Session :=
  (transport (calls s) c, on_world (emit (Api c)) s).

Definition getMyDevices (s : Session) : option (list Device) * Session :=
  (device_list (calls s), on_world (emit (Api GetMyDevices)) s).

(** [shuffledPlaylist.length] as a number. *)
Definition playlist_length (s : Session) : Js.Number :=
  Js.Int (Z.of_nat (length (shuffledPlaylist s))).

(** [shuffledPlaylist[index]] *)
Definition track_at (s : Session) (index : Z) : option Track :=
  if index <? 0 then None else shuffledPlaylist s !! Z.to_nat index.

(** The login check made when the music window opens:
    [const token = localStorage.getItem('spotify_access_token'); if (token) ...] *)
Definition isSpotifyLoggedIn (w : World) : bool :=
  Js.truthy (localStorage w !! "spotify_access_token").

(** The player's [authentication_error] listener. *)
Definition on_authentication_error (s : Session) : Session :=
  on_world (emit (StorageRemove "spotify_access_token"))
    (on_world (with_storage (delete "spotify_access_token"))
      (error "Failed to authenticate:" s)).

Definition handleNext (s : Session) : Session :=
  if player s then
    Js.if_truthy (getItem "spotify_access_token" s)
      (fun token =>
         let s := setAccessToken token s in
         let (r, s) := request SkipToNext s in
         match r with
         | None =>
             setCurrentSongIndex
               (fun prev => Js.rem (Js.add prev (Js.Int 1)) (playlist_length s)) s
         | Some _ => error "Error skipping to next track:" s
         end)
      s
  else s.

Definition handlePrev (s : Session) : Session :=
  if player s then
    Js.if_truthy (getItem "spotify_access_token" s)
      (fun token =>
         let s := setAccessToken token s in
         let (r, s) := request SkipToPrevious s in
         match r with
         | None =>
             setCurrentSongIndex
               (fun prev =>
                  Js.rem (Js.add (Js.sub prev (Js.Int 1)) (playlist_length s))
                         (playlist_length s)) s
         | Some _ => error "Error skipping to previous track:" s
         end)
      s
  else s.

(** The [onChange] handler of the volume slider; [newVolume] is
    [parseInt(e.target.value)]. *)
Definition onVolumeChange (newVolume : Z) (s : Session) : Session :=
  let s := setVolume newVolume s in
  if player s then
    Js.if_truthy (getItem "spotify_access_token" s)
      (fun token =>
         let s := setAccessToken token s in
         let (r, s) := request (SetVolume newVolume) s in
         match r with
         | None => s
         | Some _ => error "Error setting volume:" s
         end)
      s
  else s.

Definition handlePlayPause (s : Session) : Session :=
  if player s then
    Js.if_truthy (getItem "spotify_access_token" s)
      (fun token =>
         let s := setAccessToken token s in
         if isPlaying s then
           let (r, s) := request Pause s in
           match r with
           | None => set_globalIsPlaying false (setIsPlaying false s)
           | Some _ =>
               let s := error "Error pausing playback:" s in
               set_globalIsPlaying false (setIsPlaying false s)
           end
         else
           let (r, s) := request Resume s in
           match r with
           | None => set_globalIsPlaying true (setIsPlaying true s)
           | Some status =>
               let s := error "Error resuming playback:" s in
               if status =? 404 then
                 let s := log "No active device, trying to get available devices..." s in
                 let (response, s) := getMyDevices s in
                 match response with
                 | Some devices =>
                     match devices with
                     | first :: _ =>
                         let deviceId := id first in
                         let s := log "Found device, transferring playback:" s in
                         let (r, s) := request (TransferMyPlayback [deviceId] true) s in
                         match r with
                         | None => set_globalIsPlaying true (setIsPlaying true s)
                         | Some _ => error "Error transferring playback:" s
                         end
                     | [] => error "No available devices for playback" s
                     end
                 | None => error "Error getting devices:" s
                 end
               else s
           end)
      s
  else s.

(** [devices.find(device => device.is_active)] *)
Definition find_active (devices : list Device) : option Device :=
  List.find is_active devices.

(** [x || null] on a value of type [string | null | undefined]. *)
Definition or_null (x : option string) : option string :=
  if Js.truthy x then x else None.

(** The local [getDeviceId] of [handleSongClick]. *)
Definition getDeviceId (state : option string) (s : Session) : option string * Session :=
  let deviceId := getItem "spotify_device_id" s in
  if Js.truthy state then (state, s)
  else if negb (Js.truthy deviceId) then
    let (response, s) := getMyDevices s in
    match response with
    | Some devices =>
        let activeDevice := find_active devices in
        let deviceId := or_null (activeDevice ≫= id) in
        if negb (Js.truthy deviceId) then
          match devices with
          | first :: _ => (id first, s)
          | [] => (deviceId, s)
          end
        else (deviceId, s)
    | None => (deviceId, error "Error getting devices:" s)
    end
  else (deviceId, s).

Definition track_uri (t : Track) : string := "spotify:track:" +:+ track_id t.

(** [setCurrentSongIndex(index); globalCurrentSongIndex = index;] *)
Definition select (index : Z) (s : Session) : Session :=
  set_globalCurrentSongIndex (Js.Int index) (setCurrentSongIndex (fun _ => Js.Int index) s).

Definition handleSongClick (index : Z) (s : Session) : Session :=
  if player s then
    Js.if_truthy (getItem "spotify_access_token" s)
      (fun token =>
         match track_at s index with
         | Some track =>
           let s := setAccessToken token s in
           match player_state with
           | StateResolved state =>
               let (deviceId, s) := getDeviceId state s in
               if Js.truthy deviceId then
                 let (r, s) := request (Play [track_uri track] deviceId) s in
                 match r with
                 | None =>
                     let s := setCurrentSongIndex (fun _ => Js.Int index) s in
                     let s := setIsPlaying true s in
                     let s := set_globalCurrentSongIndex (Js.Int index) s in
                     set_globalIsPlaying true s
                 | Some status =>
                     let s := error "Error playing track:" s in
                     if status =? 404 then
                       let s := log "Device not available, trying to transfer playback..." s in
                       let s := select index s in
                       let (response, s) := getMyDevices s in
                       match response with
                       | Some devices =>
                           if 0 <? Z.of_nat (length devices) then
                             match find_active devices with
                             | Some activeDevice =>
                                 let (r, s) :=
                                   request (Play [track_uri track] (id activeDevice)) s in
                                 match r with
                                 | None => set_globalIsPlaying true (setIsPlaying true s)
                                 | Some _ => error "Error playing on active device:" s
                                 end
                             | None => s
                             end
                           else s
                       | None => error "Error getting devices:" s
                       end
                     else if status =? 403 then
                       let s :=
                         error "Permission error playing track. Spotify Premium may be required." s in
                       select index s
                     else select index s
                 end
               else
                 let s := error "No device available for playback" s in
                 select index s
           | StateRejected =>
               let s := error "Error getting playback state:" s in
               select index s
           end
         | None => s
         end)
      s
  else
    Js.if_truthy (getItem "spotify_access_token" s)
      (fun token =>
         match track_at s index with
         | Some track =>
             let s := setAccessToken token s in
             select index s
         | None => s
         end)
      s.

End Handlers.
End Playback.

(** ** The operations as the specification words them

    These definitions follow the text of the specification, not the code;
    they are what the code is compared with. *)

Module Spec.

(** Section 4.1, [beginLogin]: the verifier charset [[A-Za-z0-9-._~]]. *)
Definition unreserved (c : ascii) : bool :=
  Url.alphanumeric c || Ascii.eqb c "-" || Ascii.eqb c "."
  || Ascii.eqb c "_" || Ascii.eqb c "~".

(** Section 4.1, [completeLogin]: the step at which the stated sequence
    (a) error present, (b) state compared, (c) token deleted, (d) code
    absent, (e) exchange, comes to an end. *)
Inductive Stop :=
| provider_rejected
| csrf_mismatch
| missing_code
| exchange (code : string).

Definition completeLogin_stop (params : Url.URLSearchParams) (stored : option string) : Stop :=
  match Url.get params "error" with
  | Some _ => provider_rejected
  | None =>
      match Url.get params "state" with
      | None => csrf_mismatch
      | Some st =>
          if negb (Js.strict_eq (Some st) stored) then csrf_mismatch
          else match Url.get params "code" with
               | None => missing_code
               | Some c => exchange c
               end
      end
  end.

(** Section 4.1, [isAuthenticated]: a persisted access token exists and
    its stored expiration (epoch milliseconds) has not passed. *)
Definition isAuthenticated (w : World) : bool :=
  match localStorage w !! "spotify_access_token",
        localStorage w !! "spotify_token_expiration" ≫= NilZero.int_of_string with
  | Some _, Some expiresAt => clock w <? Z.of_int expiresAt
  | _, _ => false
  end.

(** Section 4.2, [resolveActiveDevice]: prefer a device flagged active,
    fall back to the first listed device, absent if the list is empty. *)
Definition resolveActiveDevice (devices : list Device) : option Device :=
  match List.find is_active devices with
  | Some d => Some d
  | None => head devices
  end.

(** Section 4.2, [setVolume(percent: 0..100)]: the accepted range. *)
Definition volume_in_range (percent : Z) : bool :=
  (0 <=? percent) && (percent <=? 100).

End Spec.

(** ** Reading a run's outcome off its trace *)

Module Observed.

(** [console.error(msg, ...)] occurs in [trace]. *)
Definition logged (msg : string) (trace : list Event) : bool :=
  existsb (fun e => match e with
                    | ConsoleError m => String.eqb m msg
                    | _ => false
                    end) trace.

(** [getAccessToken] was entered: it always writes one of these lines
    first. *)
Definition exchange_entered (trace : list Event) : bool :=
  existsb (fun e => match e with
                    | ConsoleLog m => String.eqb m "Exchanging code for token with code verifier"
                    | ConsoleError m => String.eqb m "No code verifier found in localStorage"
                    | _ => false
                    end) trace.

(** The step at which a run of [handleCallback] with trace [trace] came
    to an end, in the vocabulary of the specification. *)
Definition handleCallback_stop (params : Url.URLSearchParams) (trace : list Event) : Spec.Stop :=
  if logged "Spotify authentication error:" trace then Spec.provider_rejected
  else if logged "State mismatch - possible CSRF attack" trace then Spec.csrf_mismatch
  else match Url.get params "code" with
       | Some code => if exchange_entered trace then Spec.exchange code else Spec.missing_code
       | None => Spec.missing_code
       end.

End Observed.

(** ** Concrete browser sessions used to exercise the model *)

Module Examples.

(** A token endpoint that accepts every request. *)
Definition endpoint_tok1 (url body : string) : FetchResult :=
  FetchResolved (mkResponse true (JsonObject (Some "tok1") (Some 3600))).

(** A token endpoint whose answer carries [expires_in: 0]. *)
Definition endpoint_zero (url body : string) : FetchResult :=
  FetchResolved (mkResponse true (JsonObject (Some "tok1") (Some 0))).

(** The browser after [beginLogin]: verifier and CSRF state are pending. *)
Definition pending_login : World :=
  mkWorld (<["spotify_auth_state" := "S1"]> (<["spotify_code_verifier" := "V1"]> ∅)) 0 0 [].

(** A random source that cycles through 0, 1/7, ..., 6/7. *)
Definition random7 (k : nat) : Q := Z.of_nat (k mod 7) # 7.

(** A stand-in for the digest: the first 32 bytes of the input. *)
Definition digest32 (bytes : string) : string := String.substring 0 32 bytes.

(** A browser with empty storage. *)
Definition logged_out : World := mkWorld ∅ 0 0 [].

Definition callback_ok : Url.URLSearchParams :=
  [("code", "abc123"); ("state", "S1")].

Definition callback_forged : Url.URLSearchParams :=
  [("code", "abc123"); ("state", "EVIL")].

Definition callback_rejected_forged : Url.URLSearchParams :=
  [("error", "access_denied"); ("state", "EVIL")].

Definition callback_empty_error : Url.URLSearchParams :=
  [("error", ""); ("code", "abc123"); ("state", "S1")].

Definition three_tracks : list Track :=
  [mkTrack "t0" "zero"; mkTrack "t1" "one"; mkTrack "t2" "two"].

(** The music window of a logged-in user: a player, three tracks, the
    first one current. *)
Definition music_window : Session :=
  mkSession (mkWorld (<["spotify_access_token" := "tok1"]> ∅) 0 0 [])
    true false (Js.Int 0) three_tracks 50 false (Js.Int 0).

(** The same window with the last track current. *)
Definition music_window_last : Session :=
  mkSession (mkWorld (<["spotify_access_token" := "tok1"]> ∅) 0 0 [])
    true false (Js.Int 2) three_tracks 50 false (Js.Int 2).

(** Providers that fulfil every request, that reject every request with
    503, and that answer every request 404. *)
Definition provider_ok (history : list ApiCall) (c : ApiCall) : option Z := None.
Definition provider_unavailable (history : list ApiCall) (c : ApiCall) : option Z := Some 503.
Definition provider_not_found (history : list ApiCall) (c : ApiCall) : option Z := Some 404.

Definition inactive_device : Device := mkDevice (Some "dev1") false.
Definition active_device : Device := mkDevice (Some "dev2") true.

Definition only_inactive (history : list ApiCall) : option (list Device) :=
  Some [inactive_device].
Definition one_active (history : list ApiCall) : option (list Device) :=
  Some [inactive_device; active_device].

End Examples.

(** * Properties *)

(** ** JavaScript helpers *)

Lemma truthy_Some s : Js.truthy (Some s) = true <-> s <> "".
Proof.
  unfold Js.truthy. rewrite negb_true_iff.
  split.
  - intros H ->. discriminate.
  - intros H. destruct (String.eqb_spec s ""); congruence.
Qed.

Lemma truthy_inv x : Js.truthy x = true -> exists s, x = Some s /\ s <> "".
Proof.
  destruct x as [s|]; [|discriminate].
  intros H. exists s. split; [reflexivity|]. now apply truthy_Some.
Qed.

Lemma strict_eq_true a b : Js.strict_eq a b = true <-> a = b.
Proof.
  destruct a as [x|], b as [y|]; simpl; try (split; congruence).
  rewrite String.eqb_eq. split; congruence.
Qed.

Lemma strict_eq_false a b : Js.strict_eq a b = false <-> a <> b.
Proof.
  rewrite <- strict_eq_true. destruct (Js.strict_eq a b); split; congruence.
Qed.

Lemma if_truthy_true {A} x s (yes : string -> A) no :
  x = Some s -> s <> "" -> Js.if_truthy x yes no = yes s.
Proof.
  intros -> Hs. unfold Js.if_truthy.
  destruct (String.eqb_spec s ""); congruence.
Qed.

Lemma if_truthy_false {A} x (yes : string -> A) no :
  Js.truthy x = false -> Js.if_truthy x yes no = no.
Proof.
  destruct x as [s|]; simpl; [|reflexivity].
  destruct (String.eqb s ""); [reflexivity | discriminate].
Qed.

(** The test [state === null || state !== storedState] fires exactly when
    the returned state is absent or differs from the stored one. *)
Lemma mismatch_test state stored :
  Js.strict_eq state None || negb (Js.strict_eq state stored) = true
  <-> state = None \/ state <> stored.
Proof.
  rewrite orb_true_iff, negb_true_iff, strict_eq_true, strict_eq_false. tauto.
Qed.

Arguments Url.toString : simpl never.
Arguments Url.encode : simpl never.
Arguments Url.join : simpl never.
Arguments Js.toString : simpl never.
Arguments Js.if_truthy : simpl never.
Arguments SpotifyAuth.random_text : simpl never.
Arguments SpotifyAuth.drawn : simpl never.

Ltac run :=
  unfold try_catch, console_log, console_error, localStorage_getItem,
    localStorage_setItem, localStorage_removeItem, Date_now, throw,
    mbind, M_bind, mret, M_ret; cbn [fst snd].

(** ** The token exchange and the callback *)

Section AuthProps.

Variable env_client_id : option string.
Variable token_endpoint : string -> string -> FetchResult.

Local Abbreviation getAccessToken := (SpotifyAuth.getAccessToken env_client_id token_endpoint).
Local Abbreviation handleCallback := (SpotifyAuth.handleCallback env_client_id token_endpoint).
Local Abbreviation exchange_succeeds := (SpotifyAuth.exchange_succeeds env_client_id token_endpoint).
Local Abbreviation after_removal := SpotifyAuth.after_removal.
Local Abbreviation callback_accepts := SpotifyAuth.callback_accepts.

(** What a successful exchange leaves in storage. *)
Lemma getAccessToken_success code w token expires_in :
  exchange_succeeds code w token expires_in ->
  exists w',
    getAccessToken code w = (Normal (Some token), w')
    /\ localStorage w' =
         <["spotify_access_token" := token]>
           (<["spotify_token_expiration" :=
                Js.toString (clock w + Js.or_num expires_in 3600 * 1000)]> (localStorage w))
    /\ clock w' = clock w.
Proof.
  intros (verifier & Hv & Hne & Hfetch & Htok).
  unfold SpotifyAuth.getAccessToken. run. rewrite Hv.
  rewrite (if_truthy_true _ verifier) by auto. cbn.
  unfold SpotifyAuth.fetch. rewrite Hfetch. cbn.
  rewrite (if_truthy_true _ token) by auto. cbn.
  eexists. split; [reflexivity|]. cbn. auto.
Qed.

(** Every run of [getAccessToken] completes normally; a run that yields a
    token went down the full success path, and any other run leaves the
    storage as it was. *)
Lemma getAccessToken_total code w :
  exists r w',
    getAccessToken code w = (Normal r, w')
    /\ clock w' = clock w
    /\ match r with
       | Some token =>
           exists expires_in,
             exchange_succeeds code w token expires_in
             /\ localStorage w' =
                  <["spotify_access_token" := token]>
                    (<["spotify_token_expiration" :=
                         Js.toString (clock w + Js.or_num expires_in 3600 * 1000)]>
                       (localStorage w))
       | None => localStorage w' = localStorage w
       end.
Proof.
  unfold SpotifyAuth.getAccessToken, Js.if_truthy. run.
  destruct (localStorage w !! "spotify_code_verifier") as [verifier|] eqn:Hv; cbn;
    [|eauto 6].
  destruct (String.eqb_spec verifier ""); cbn; [eauto 6|].
  unfold SpotifyAuth.fetch.
  destruct (token_endpoint _ _) as [|[[] [| |tok e]]] eqn:Hfetch; cbn; eauto 6.
  destruct tok as [token|]; cbn; [|eauto 6].
  destruct (String.eqb_spec token ""); cbn; [eauto 6|].
  do 2 eexists. split; [reflexivity|]. split; [reflexivity|].
  exists e. split; [|reflexivity]. exists verifier. auto.
Qed.

(** The run of [handleCallback], with the [try]/[catch] frames resolved. *)
Lemma handleCallback_run params w :
  handleCallback params w =
    if Js.strict_eq (Url.get params "state") None
       || negb (Js.strict_eq (Url.get params "state") (localStorage w !! "spotify_auth_state"))
    then (Normal None,
          emit (ConsoleError "Stored state:")
            (emit (ConsoleError "Received state:")
              (emit (ConsoleError "State mismatch - possible CSRF attack")
                (after_removal w))))
    else if Js.truthy (Url.get params "error")
    then (Normal None,
          emit (ConsoleError "Spotify authentication error:") (after_removal w))
    else Js.if_truthy (Url.get params "code")
           (fun code => getAccessToken code (after_removal w))
           (Normal None, after_removal w).
Proof.
  unfold SpotifyAuth.handleCallback. run.
  destruct (_ || _); [reflexivity|].
  destruct (Js.truthy _); [reflexivity|].
  unfold Js.if_truthy.
  destruct (Url.get params "code") as [code|]; [|reflexivity].
  destruct (String.eqb code ""); [reflexivity|].
  fold (after_removal w).
  destruct (getAccessToken_total code (after_removal w)) as (r & w' & -> & _).
  reflexivity.
Qed.

(** C1. Whenever the [state] returned to the callback is absent or differs
    from the persisted CSRF token, [handleCallback] fails: it returns
    [null], reports the state mismatch on the console, and makes no request
    to the token endpoint; nothing but the removal of the pending CSRF
    token happens to the storage, so no access token is stored either. *)
Theorem handleCallback_csrf_mismatch params w :
  Url.get params "state" = None
  \/ Url.get params "state" <> localStorage w !! "spotify_auth_state" ->
  exists w',
    handleCallback params w = (Normal None, w')
    /\ events w' =
         events w ++
           [ ConsoleLog "Handling callback with code:";
             StorageRemove "spotify_auth_state";
             ConsoleError "State mismatch - possible CSRF attack";
             ConsoleError "Received state:";
             ConsoleError "Stored state:" ]
    /\ (forall url body, ~ In (Fetch url body) (skipn (length (events w)) (events w')))
    /\ localStorage w' = delete "spotify_auth_state" (localStorage w).
Proof.
  intros Hmis. apply mismatch_test in Hmis.
  rewrite handleCallback_run, Hmis.
  eexists. split; [reflexivity|].
  assert (Htrace : forall (l : list Event) a b c d e,
             ((((l ++ [a]) ++ [b]) ++ [c]) ++ [d]) ++ [e] = l ++ [a; b; c; d; e]).
  { intros. repeat rewrite <- app_assoc. reflexivity. }
  cbn. rewrite Htrace. split; [reflexivity|]. split; [|reflexivity].
  intros url body. rewrite skipn_app, skipn_all, Nat.sub_diag. cbn.
  intuition discriminate.
Qed.

(** Removing the CSRF state leaves every other key alone. *)
Lemma after_removal_lookup w k :
  k <> "spotify_auth_state" ->
  localStorage (after_removal w) !! k = localStorage w !! k.
Proof. intros Hk. cbn. now rewrite lookup_delete_ne. Qed.

Lemma exchange_succeeds_after_removal code w token e :
  exchange_succeeds code (after_removal w) token e <-> exchange_succeeds code w token e.
Proof.
  unfold SpotifyAuth.exchange_succeeds.
  rewrite after_removal_lookup by discriminate. reflexivity.
Qed.

Lemma after_removal_events w :
  events (after_removal w) =
    events w ++ [ConsoleLog "Handling callback with code:"; StorageRemove "spotify_auth_state"].
Proof. cbn. now rewrite <- app_assoc. Qed.

(** C2 (as the code has it). [handleCallback] takes its steps in this
    order for every input: the persisted CSRF token is deleted first,
    before any check; then the returned [state] is compared with the value
    read beforehand, and an absent or different state ends the run with the
    state-mismatch report; then a non-empty [error] parameter ends it with
    the authentication-error report; then an absent or empty [code] ends it
    silently; only then is the code exchanged.  The three early exits make
    no request. *)
Theorem handleCallback_order params w :
  let state := Url.get params "state" in
  let stored := localStorage w !! "spotify_auth_state" in
  let error := Url.get params "error" in
  let code := Url.get params "code" in
  events (after_removal w) =
    events w ++ [ConsoleLog "Handling callback with code:"; StorageRemove "spotify_auth_state"]
  /\ localStorage (after_removal w) = delete "spotify_auth_state" (localStorage w)
  /\ (state = None \/ state <> stored ->
      handleCallback params w =
        (Normal None,
         emit (ConsoleError "Stored state:")
           (emit (ConsoleError "Received state:")
             (emit (ConsoleError "State mismatch - possible CSRF attack")
               (after_removal w)))))
  /\ (state <> None -> state = stored -> Js.truthy error = true ->
      handleCallback params w =
        (Normal None, emit (ConsoleError "Spotify authentication error:") (after_removal w)))
  /\ (state <> None -> state = stored -> Js.truthy error = false -> Js.truthy code = false ->
      handleCallback params w = (Normal None, after_removal w))
  /\ (forall c, state <> None -> state = stored -> Js.truthy error = false ->
      code = Some c -> c <> "" ->
      handleCallback params w = getAccessToken c (after_removal w)).
Proof.
  intros state stored error code.
  split; [apply after_removal_events|]. split; [reflexivity|].
  assert (Hok : state <> None -> state = stored ->
                Js.strict_eq state None || negb (Js.strict_eq state stored) = false).
  { intros H1 H2. apply not_true_is_false. rewrite mismatch_test. tauto. }
  repeat split.
  - intros Hmis. apply mismatch_test in Hmis.
    rewrite handleCallback_run. fold state stored. now rewrite Hmis.
  - intros H1 H2 He. rewrite handleCallback_run. fold state stored error.
    now rewrite Hok, He.
  - intros H1 H2 He Hc. rewrite handleCallback_run. fold state stored error code.
    rewrite Hok, He by assumption. now rewrite if_truthy_false.
  - intros c H1 H2 He Hc Hne. rewrite handleCallback_run. fold state stored error code.
    rewrite Hok, He by assumption. now rewrite (if_truthy_true _ c).
Qed.

(** C9 (as the code has it). [getAccessToken] and [handleCallback] are
    total and never throw: every run completes normally with a token or
    with [null].  A token comes back exactly on the full success path: the
    returned state is present and equal to the stored one, there is no
    non-empty [error] parameter, a non-empty [code] is present, a non-empty
    code verifier is stored, the request is fulfilled with a success status,
    and the body is a JSON object with a non-empty [access_token].  Every
    other run, a thrown network or parsing exception included, yields
    [null]. *)
Theorem auth_never_throws params code w :
  (exists r w',
     getAccessToken code w = (Normal r, w')
     /\ forall token,
          r = Some token <-> exists expires_in, exchange_succeeds code w token expires_in)
  /\ (exists r w',
        handleCallback params w = (Normal r, w')
        /\ forall token,
             r = Some token <->
             exists code expires_in,
               callback_accepts params w code /\ exchange_succeeds code w token expires_in).
Proof.
  split.
  { destruct (getAccessToken_total code w) as (r & w' & Hrun & _ & Hr).
    exists r, w'. split; [assumption|]. intros token. split.
    - intros ->. destruct Hr as (e & Hex & _). eauto.
    - intros (e & Hex).
      destruct (getAccessToken_success _ _ _ _ Hex) as (w'' & Hrun' & _).
      congruence. }
  clear code. rewrite handleCallback_run.
  destruct (_ || _) eqn:Hmis.
  { do 2 eexists. split; [reflexivity|]. intros token. split; [discriminate|].
    intros (code & e & (H1 & H2 & _) & _).
    apply mismatch_test in Hmis. tauto. }
  assert (Hst : Url.get params "state" <> None
                /\ Url.get params "state" = localStorage w !! "spotify_auth_state").
  { apply orb_false_iff in Hmis as [H1 H2].
    apply strict_eq_false in H1. apply negb_false_iff, strict_eq_true in H2. auto. }
  destruct (Js.truthy (Url.get params "error")) eqn:He.
  { do 2 eexists. split; [reflexivity|]. intros token. split; [discriminate|].
    intros (code & e & (_ & _ & H3 & _) & _). congruence. }
  destruct (Url.get params "code") as [code|] eqn:Hc.
  2:{ rewrite if_truthy_false by reflexivity.
      do 2 eexists. split; [reflexivity|]. intros token. split; [discriminate|].
      intros (code & e & (_ & _ & _ & H4 & _) & _). congruence. }
  destruct (String.eqb_spec code "") as [->|Hne].
  { rewrite if_truthy_false by reflexivity.
    do 2 eexists. split; [reflexivity|]. intros token. split; [discriminate|].
    intros (code & e & (_ & _ & _ & H4 & H5) & _). congruence. }
  rewrite (if_truthy_true _ code) by auto.
  destruct (getAccessToken_total code (after_removal w)) as (r & w' & Hrun & _ & Hr).
  exists r, w'. split; [assumption|]. intros token. split.
  - intros ->. destruct Hr as (e & Hex & _).
    exists code, e. split.
    + unfold SpotifyAuth.callback_accepts. tauto.
    + now apply exchange_succeeds_after_removal.
  - intros (code' & e & (_ & _ & _ & H4 & _) & Hex).
    assert (code' = code) as -> by congruence.
    apply exchange_succeeds_after_removal in Hex.
    destruct (getAccessToken_success _ _ _ _ Hex) as (w'' & Hrun' & _).
    congruence.
Qed.

(** The failure paths one by one: each of them yields [null]. *)
Lemma getAccessToken_failure_paths code w :
  (Js.truthy (localStorage w !! "spotify_code_verifier") = false
   \/ (forall verifier,
         localStorage w !! "spotify_code_verifier" = Some verifier ->
         match token_endpoint SpotifyAuth.tokenUrl
                 (Url.toString (SpotifyAuth.token_payload env_client_id code verifier)) with
         | FetchRejected => True                                   (* network exception *)
         | FetchResolved (mkResponse false _) => True              (* non-success status *)
         | FetchResolved (mkResponse true JsonInvalid) => True     (* parsing exception *)
         | FetchResolved (mkResponse true JsonNull) => True        (* member read throws *)
         | FetchResolved (mkResponse true (JsonObject token _)) => Js.truthy token = false
         end)) ->
  exists w', getAccessToken code w = (Normal None, w').
Proof.
  intros Hfail.
  destruct (getAccessToken_total code w) as ([token|] & w' & Hrun & _ & Hr); [|eauto].
  exfalso. destruct Hr as (e & (verifier & Hv & Hne & Hfetch & Htok) & _).
  destruct Hfail as [Hfail|Hfail].
  - rewrite Hv in Hfail. apply truthy_Some in Hne. congruence.
  - specialize (Hfail _ Hv). rewrite Hfetch in Hfail.
    apply truthy_Some in Htok. congruence.
Qed.

Lemma handleCallback_failure_paths params w :
  Js.truthy (Url.get params "error") = true
  \/ Url.get params "state" = None
  \/ Url.get params "state" <> localStorage w !! "spotify_auth_state"
  \/ Js.truthy (Url.get params "code") = false
  \/ Js.truthy (localStorage w !! "spotify_code_verifier") = false ->
  exists w', handleCallback params w = (Normal None, w').
Proof.
  intros Hfail. rewrite handleCallback_run.
  destruct (_ || _) eqn:Hmis; [eauto|].
  destruct (Js.truthy (Url.get params "error")) eqn:He; [eauto|].
  destruct (Js.truthy (Url.get params "code")) eqn:Hc;
    [|rewrite if_truthy_false by assumption; eauto].
  apply truthy_inv in Hc as (code & Hc & Hne).
  rewrite (if_truthy_true _ code) by assumption.
  apply getAccessToken_failure_paths. left.
  rewrite after_removal_lookup by discriminate.
  assert (Hm : ~ (Url.get params "state" = None
                  \/ Url.get params "state" <> localStorage w !! "spotify_auth_state")).
  { rewrite <- mismatch_test. congruence. }
  destruct Hfail as [H|[H|[H|[H|H]]]].
  - congruence.
  - tauto.
  - tauto.
  - discriminate.
  - assumption.
Qed.

(** C10 (as the code has it). On the success path [getAccessToken] stores
    the token and the expiration [Date.now() + expiresIn * 1000] (epoch
    milliseconds), where [expiresIn] is the [expires_in] of the response,
    or 3600 when that field is omitted or is 0.  A run that yields no token
    leaves the stored [access_token] and [token_expiration] as they
    were. *)
Theorem getAccessToken_expiration code w :
  exists r w',
    getAccessToken code w = (Normal r, w')
    /\ match r with
       | Some token =>
           exists expires_in expiration,
             exchange_succeeds code w token expires_in
             /\ localStorage w' !! "spotify_access_token" = Some token
             /\ localStorage w' !! "spotify_token_expiration" = Some (Js.toString expiration)
             /\ (expires_in = None -> expiration = clock w + 3600 * 1000)
             /\ (expires_in = Some 0 -> expiration = clock w + 3600 * 1000)
             /\ (forall n, expires_in = Some n -> n <> 0 -> expiration = clock w + n * 1000)
       | None =>
           localStorage w' !! "spotify_access_token"
             = localStorage w !! "spotify_access_token"
           /\ localStorage w' !! "spotify_token_expiration"
              = localStorage w !! "spotify_token_expiration"
       end.
Proof.
  destruct (getAccessToken_total code w) as (r & w' & Hrun & _ & Hr).
  exists r, w'. split; [assumption|].
  destruct r as [token|].
  - destruct Hr as (e & Hex & ->).
    exists e, (clock w + Js.or_num e 3600 * 1000).
    split; [assumption|].
    split; [apply lookup_insert_eq|].
    split; [rewrite lookup_insert_ne by discriminate; apply lookup_insert_eq|].
    repeat split.
    + now intros ->.
    + now intros ->.
    + intros n -> Hn. cbn. destruct (Z.eqb_spec n 0); congruence.
  - now rewrite Hr.
Qed.

(** C4 (as the code has it). The music window takes the user as logged in
    exactly when a non-empty access token is stored; the stored expiration
    plays no part.  After a successful exchange the check holds at every
    later clock reading, and it stops holding once the player's
    authentication-error listener has removed the token. *)
Theorem isSpotifyLoggedIn_ignores_expiry code w token w' :
  getAccessToken code w = (Normal (Some token), w') ->
  (forall w0, Playback.isSpotifyLoggedIn w0 = true <->
              exists t, localStorage w0 !! "spotify_access_token" = Some t /\ t <> "")
  /\ (forall now, Playback.isSpotifyLoggedIn (with_clock now w') = true)
  /\ (forall s,
        Playback.isSpotifyLoggedIn (world (Playback.on_authentication_error s)) = false).
Proof.
  intros Hrun. split; [|split].
  - intros w0. unfold Playback.isSpotifyLoggedIn. split.
    + apply truthy_inv.
    + intros (t & -> & Ht). now apply truthy_Some.
  - intros now.
    destruct (getAccessToken_total code w) as (r & w1 & Hrun' & _ & Hr).
    rewrite Hrun in Hrun'. injection Hrun' as <- <-.
    destruct Hr as (e & (_ & _ & _ & _ & Htok) & Hls).
    unfold Playback.isSpotifyLoggedIn. cbn. rewrite Hls, lookup_insert_eq.
    now apply truthy_Some.
  - intros s. unfold Playback.isSpotifyLoggedIn. cbn.
    now rewrite lookup_delete_eq.
Qed.

End AuthProps.

(** The runs the statements above are checked against. *)

Lemma handleCallback_csrf_mismatch_witness :
  exists w',
    SpotifyAuth.handleCallback None Examples.endpoint_tok1
      Examples.callback_forged Examples.pending_login = (Normal None, w')
    /\ events w' =
         events Examples.pending_login ++
           [ ConsoleLog "Handling callback with code:";
             StorageRemove "spotify_auth_state";
             ConsoleError "State mismatch - possible CSRF attack";
             ConsoleError "Received state:";
             ConsoleError "Stored state:" ]
    /\ (forall url body,
          ~ In (Fetch url body) (skipn (length (events Examples.pending_login)) (events w')))
    /\ localStorage w' = delete "spotify_auth_state" (localStorage Examples.pending_login).
Proof.
  apply (handleCallback_csrf_mismatch None Examples.endpoint_tok1
           Examples.callback_forged Examples.pending_login).
  right. vm_compute. discriminate.
Defined.

(** C2, refuted as stated: with an [error] parameter and a forged [state]
    the specification's order ends at step (a), provider-rejected, while the
    code reports the state mismatch; and with a forged [state] alone the
    specification never reaches the deletion (c), while the code has already
    removed the persisted CSRF token. *)
Lemma handleCallback_order_counterexample :
  Spec.completeLogin_stop Examples.callback_rejected_forged
    (localStorage Examples.pending_login !! "spotify_auth_state") = Spec.provider_rejected
  /\ Observed.handleCallback_stop Examples.callback_rejected_forged
       (events (snd (SpotifyAuth.handleCallback None Examples.endpoint_tok1
                       Examples.callback_rejected_forged Examples.pending_login)))
     = Spec.csrf_mismatch
  /\ Spec.completeLogin_stop Examples.callback_forged
       (localStorage Examples.pending_login !! "spotify_auth_state") = Spec.csrf_mismatch
  /\ localStorage Examples.pending_login !! "spotify_auth_state" = Some "S1"
  /\ localStorage (snd (SpotifyAuth.handleCallback None Examples.endpoint_tok1
                          Examples.callback_forged Examples.pending_login))
       !! "spotify_auth_state" = None.
Proof. repeat split; vm_compute; reflexivity. Qed.

(** C9, refuted as stated: an [error] parameter that is present but empty
    does not make [handleCallback] fail; the code is exchanged and the token
    comes back. *)
Lemma handleCallback_empty_error_counterexample :
  Url.get Examples.callback_empty_error "error" = Some ""
  /\ fst (SpotifyAuth.handleCallback None Examples.endpoint_tok1
            Examples.callback_empty_error Examples.pending_login)
     = Normal (Some "tok1").
Proof. split; vm_compute; reflexivity. Qed.

(** C10, refuted as stated: a response with [expires_in: 0] is stored as if
    the field were 3600, not as [Date.now() + 0 * 1000]. *)
Lemma getAccessToken_zero_expiry_counterexample :
  fst (SpotifyAuth.getAccessToken None Examples.endpoint_zero "abc123" Examples.pending_login)
    = Normal (Some "tok1")
  /\ localStorage (snd (SpotifyAuth.getAccessToken None Examples.endpoint_zero
                          "abc123" Examples.pending_login))
       !! "spotify_token_expiration" = Some "3600000"
  /\ Js.toString (clock Examples.pending_login + 0 * 1000) = "0".
Proof. repeat split; vm_compute; reflexivity. Qed.

(** C8, refuted as stated: after a callback whose exchange succeeded the
    code verifier is still in storage. *)
Lemma code_verifier_counterexample :
  fst (SpotifyAuth.handleCallback None Examples.endpoint_tok1
         Examples.callback_ok Examples.pending_login) = Normal (Some "tok1")
  /\ localStorage (snd (SpotifyAuth.handleCallback None Examples.endpoint_tok1
                          Examples.callback_ok Examples.pending_login))
       !! "spotify_code_verifier" = Some "V1".
Proof. split; vm_compute; reflexivity. Qed.

(** C4, refuted as stated: 3601 seconds after an exchange that stored
    [expires_in = 3600] the code still takes the user as logged in, while
    the stated [isAuthenticated] is false. *)
Lemma isAuthenticated_counterexample :
  fst (SpotifyAuth.handleCallback None Examples.endpoint_tok1
         Examples.callback_ok Examples.pending_login) = Normal (Some "tok1")
  /\ (let w' := snd (SpotifyAuth.handleCallback None Examples.endpoint_tok1
                       Examples.callback_ok Examples.pending_login) in
      localStorage w' !! "spotify_token_expiration" = Some "3600000"
      /\ Spec.isAuthenticated (with_clock 3599000 w') = true
      /\ Playback.isSpotifyLoggedIn (with_clock 3599000 w') = true
      /\ Spec.isAuthenticated (with_clock 3601000 w') = false
      /\ Playback.isSpotifyLoggedIn (with_clock 3601000 w') = true).
Proof. repeat split; vm_compute; reflexivity. Qed.

Lemma isSpotifyLoggedIn_ignores_expiry_witness :
  (forall w0, Playback.isSpotifyLoggedIn w0 = true <->
              exists t, localStorage w0 !! "spotify_access_token" = Some t /\ t <> "")
  /\ (forall now,
        Playback.isSpotifyLoggedIn
          (with_clock now
             (snd (SpotifyAuth.getAccessToken None Examples.endpoint_tok1
                     "abc123" Examples.pending_login))) = true)
  /\ (forall s,
        Playback.isSpotifyLoggedIn (world (Playback.on_authentication_error s)) = false).
Proof.
  apply (isSpotifyLoggedIn_ignores_expiry None Examples.endpoint_tok1
           "abc123" Examples.pending_login "tok1").
  vm_compute. reflexivity.
Defined.

(** ** The code challenge: [btoa] with replacements is base64url without padding *)

Section Base64Props.

Import Base64.

Lemma string_ind3 (P : string -> Prop) :
  P "" ->
  (forall a, P (String a "")) ->
  (forall a b, P (String a (String b ""))) ->
  (forall a b c rest, P rest -> P (String a (String b (String c rest)))) ->
  forall s, P s.
Proof.
  intros H0 H1 H2 H3.
  assert (H : forall s, P s /\ (forall a, P (String a s)) /\ (forall a b, P (String a (String b s)))).
  { induction s as [|c s (IH0 & IH1 & IH2)].
    - auto.
    - split; [apply IH1|]. split; [intros a; apply IH2|].
      intros a b. apply H3, IH0. }
  intros s. apply H.
Qed.

Lemma replace_all_url_safe c rest :
  replace_all "/" "_" (replace_all "+" "-" (String c rest))
  = String (url_safe c) (replace_all "/" "_" (replace_all "+" "-" rest)).
Proof. reflexivity. Qed.

(** Each of the 64 digits of the standard alphabet becomes the digit of
    the URL-safe alphabet at the same index, and none of them is [=]. *)
Lemma digit_table :
  forallb (fun i =>
             Ascii.eqb (url_safe (digit alphabet (N.of_nat i))) (digit url_alphabet (N.of_nat i))
             && negb (Ascii.eqb (digit url_alphabet (N.of_nat i)) "="))
          (seq 0 64) = true.
Proof. vm_compute. reflexivity. Qed.

Lemma digit_url_safe n :
  url_safe (digit alphabet n) = digit url_alphabet n
  /\ digit url_alphabet n <> "="%char.
Proof.
  assert (Hlt : (N.to_nat (n mod 64) < 64)%nat).
  { pose proof (N.mod_upper_bound n 64). lia. }
  pose proof (proj1 (forallb_forall _ _) digit_table (N.to_nat (n mod 64))) as H.
  cbv beta in H. rewrite N2Nat.id in H.
  assert (Hd : forall table, digit table (n mod 64) = digit table n).
  { intros table. unfold digit. now rewrite N.Div0.mod_mod. }
  rewrite !Hd in H.
  assert (Hin : In (N.to_nat (n mod 64)) (seq 0 64)).
  { apply in_seq. revert Hlt. generalize (N.to_nat (n mod 64)). intros k Hk. lia. }
  specialize (H Hin).
  apply andb_true_iff in H as [H1 H2].
  apply Ascii.eqb_eq in H1. apply negb_true_iff, Ascii.eqb_neq in H2. auto.
Qed.

Lemma strip_padding_cons c s :
  c <> "="%char -> strip_padding (String c s) = String c (strip_padding s).
Proof.
  intros Hc. cbn. apply Ascii.eqb_neq in Hc. rewrite Hc.
  now destruct (strip_padding s).
Qed.

(** The chain of [generateCodeChallenge] computes base64url without
    padding, for every byte string. *)
Lemma btoa_replace_strip s :
  strip_padding (replace_all "/" "_" (replace_all "+" "-" (btoa s))) = base64url_nopad s.
Proof.
  induction s as [|a|a b|a b c rest IH] using string_ind3.
  - reflexivity.
  - cbn [btoa base64url_nopad]. rewrite !replace_all_url_safe.
    rewrite !(proj1 (digit_url_safe _)).
    rewrite !strip_padding_cons by apply digit_url_safe. reflexivity.
  - cbn [btoa base64url_nopad]. rewrite !replace_all_url_safe.
    rewrite !(proj1 (digit_url_safe _)).
    rewrite !strip_padding_cons by apply digit_url_safe. reflexivity.
  - cbn [btoa base64url_nopad]. rewrite !replace_all_url_safe.
    rewrite !(proj1 (digit_url_safe _)).
    rewrite !strip_padding_cons by apply digit_url_safe. now rewrite IH.
Qed.

End Base64Props.

(** ** Starting the login *)

Lemma floor_mul_range (r : Q) (n : Z) :
  (0 <= r)%Q -> (r < 1)%Q -> 0 < n -> 0 <= Js.floor_mul r n < n.
Proof.
  intros Hr0 Hr1 Hn. unfold Js.floor_mul.
  assert (Hn' : (0 < inject_Z n)%Q) by (change 0%Q with (inject_Z 0); now rewrite <- Zlt_Qlt).
  split.
  - change 0 with (Qfloor 0). apply Qfloor_resp_le.
    apply Qmult_le_0_compat; [assumption | now apply Qlt_le_weak].
  - rewrite Zlt_Qlt.
    apply Qle_lt_trans with (r * inject_Z n)%Q; [apply Qfloor_le|].
    apply Qlt_le_trans with (1 * inject_Z n)%Q; [now apply Qmult_lt_r|].
    rewrite Qmult_1_l. apply Qle_refl.
Qed.

Lemma charAt_in_range (possible : string) (i : Z) :
  0 <= i < Z.of_nat (String.length possible) ->
  exists c, Js.charAt possible i = String c "" /\ In c (list_ascii_of_string possible).
Proof.
  intros Hi. unfold Js.charAt.
  destruct (Z.ltb_spec i 0); [lia|].
  assert (Hlt : (Z.to_nat i < String.length possible)%nat) by lia.
  revert Hlt. generalize (Z.to_nat i). clear.
  induction possible as [|c rest IH]; intros k Hk; cbn in *; [lia|].
  destruct k as [|k].
  - exists c. auto.
  - destruct (IH k ltac:(lia)) as (c' & Hc & Hin). exists c'. auto.
Qed.

Lemma append_cons c s t : String c s +:+ t = String c (s +:+ t).
Proof. reflexivity. Qed.

Lemma append_nil_l s : "" +:+ s = s.
Proof. reflexivity. Qed.

Lemma append_nil_r s : s +:+ "" = s.
Proof. induction s as [|c s IH]; [reflexivity|]. now rewrite append_cons, IH. Qed.

Lemma append_assoc s t u : (s +:+ t) +:+ u = s +:+ (t +:+ u).
Proof. induction s as [|c s IH]; [reflexivity|]. now rewrite !append_cons, IH. Qed.

Section LoginProps.

Variable env_client_id : option string.
Variable random : nat -> Q.
Variable sha256 : string -> string.
Variable token_endpoint : string -> string -> FetchResult.

Local Abbreviation getSpotifyLoginUrl := (SpotifyAuth.getSpotifyLoginUrl env_client_id random sha256).
Local Abbreviation drawn := (SpotifyAuth.drawn random).
Local Abbreviation pick := (SpotifyAuth.pick random).

Lemma random_text_S possible k text w :
  SpotifyAuth.random_text random possible (S k) text w =
    SpotifyAuth.random_text random possible k (text +:+ pick possible (draws w))
      (mkWorld (localStorage w) (clock w) (S (draws w)) (events w)).
Proof. reflexivity. Qed.

Lemma drawn_S possible start k :
  drawn possible start (S k) = pick possible start +:+ drawn possible (S start) k.
Proof. reflexivity. Qed.

(** The loop appends [count] picks to [text], uses up [count] draws and
    touches nothing else. *)
Lemma random_text_run possible count text w :
  SpotifyAuth.random_text random possible count text w =
    (Normal (text +:+ drawn possible (draws w) count),
     mkWorld (localStorage w) (clock w) (draws w + count) (events w)).
Proof.
  revert text w. induction count as [|k IH]; intros text w.
  - change (SpotifyAuth.random_text random possible 0 text w) with (Normal text, w).
    change (drawn possible (draws w) 0) with "".
    rewrite append_nil_r, Nat.add_0_r. now destruct w.
  - rewrite random_text_S, IH, drawn_S. cbn [draws localStorage clock events].
    rewrite append_assoc. now rewrite Nat.add_succ_r.
Qed.

Hypothesis random_range : forall k, (0 <= random k)%Q /\ (random k < 1)%Q.

Lemma pick_char possible k :
  possible <> "" ->
  exists c, pick possible k = String c "" /\ In c (list_ascii_of_string possible).
Proof.
  intros Hne. apply charAt_in_range, floor_mul_range; try apply random_range.
  destruct possible; [congruence | cbn; lia].
Qed.

Lemma drawn_length possible start count :
  possible <> "" -> String.length (drawn possible start count) = count.
Proof.
  intros Hne. revert start. induction count as [|k IH]; intros start; [reflexivity|].
  rewrite drawn_S. destruct (pick_char possible start Hne) as (c & -> & _).
  rewrite append_cons, append_nil_l. cbn. now rewrite IH.
Qed.

Lemma drawn_chars possible start count c :
  possible <> "" ->
  In c (list_ascii_of_string (drawn possible start count)) ->
  In c (list_ascii_of_string possible).
Proof.
  intros Hne. revert start. induction count as [|k IH]; intros start; [intros []|].
  rewrite drawn_S. destruct (pick_char possible start Hne) as (c' & -> & Hin).
  rewrite append_cons, append_nil_l. cbn. intros [<-|H]; [assumption | eauto].
Qed.


Local Abbreviation getAccessToken := (SpotifyAuth.getAccessToken env_client_id token_endpoint).
Local Abbreviation handleCallback := (SpotifyAuth.handleCallback env_client_id token_endpoint).

(** C8 (as the code has it). The code verifier is created at login start,
    where it replaces any earlier one, and it is not single-use: neither
    the token exchange nor the callback changes what is stored under
    [spotify_code_verifier], whatever their input and outcome. *)
Theorem code_verifier_persists params code w :
  localStorage (snd (getSpotifyLoginUrl w)) !! "spotify_code_verifier"
    = Some (drawn SpotifyAuth.verifier_charset (draws w) 128)
  /\ localStorage (snd (getAccessToken code w)) !! "spotify_code_verifier"
     = localStorage w !! "spotify_code_verifier"
  /\ localStorage (snd (handleCallback params w)) !! "spotify_code_verifier"
     = localStorage w !! "spotify_code_verifier".
Proof.
  assert (Hget : forall c w0,
             localStorage (snd (getAccessToken c w0)) !! "spotify_code_verifier"
             = localStorage w0 !! "spotify_code_verifier").
  { intros c w0.
    destruct (getAccessToken_total env_client_id token_endpoint c w0)
      as (r & w' & -> & _ & Hr). cbn.
    destruct r as [token|].
    - destruct Hr as (e & _ & ->).
      now rewrite !lookup_insert_ne by discriminate.
    - now rewrite Hr. }
  split; [|split; [apply Hget|]].
  - unfold SpotifyAuth.getSpotifyLoginUrl, SpotifyAuth.generateCodeVerifier,
      SpotifyAuth.generateRandomString. run.
    rewrite random_text_run. cbn. rewrite random_text_run. cbn.
    rewrite lookup_insert_ne by discriminate.
    now rewrite lookup_insert_eq, append_nil_l.
  - rewrite handleCallback_run.
    destruct (_ || _); [cbn; now rewrite lookup_delete_ne by discriminate|].
    destruct (Js.truthy _); [cbn; now rewrite lookup_delete_ne by discriminate|].
    unfold Js.if_truthy.
    destruct (Url.get params "code") as [c|];
      [|cbn; now rewrite lookup_delete_ne by discriminate].
    destruct (String.eqb c ""); [cbn; now rewrite lookup_delete_ne by discriminate|].
    rewrite Hget. cbn. now rewrite lookup_delete_ne by discriminate.
Qed.

End LoginProps.

Lemma random7_range k : (0 <= Examples.random7 k)%Q /\ (Examples.random7 k < 1)%Q.
Proof.
  unfold Examples.random7, Qle, Qlt. cbn.
  pose proof (Nat.mod_upper_bound k 7). lia.
Defined.


(** ** Playback handlers *)

Lemma api_calls_app trace more :
  Playback.api_calls (trace ++ more) = Playback.api_calls trace ++ Playback.api_calls more.
Proof.
  induction trace as [|e trace IH]; cbn; [reflexivity|].
  rewrite IH. destruct e; reflexivity.
Qed.

Lemma logged_app msg trace more :
  Observed.logged msg (trace ++ more) = Observed.logged msg trace || Observed.logged msg more.
Proof. apply existsb_app. Qed.

(** Bring a trace to the form [old ++ [new events]] and read the requests
    off it. *)
Ltac trace_norm :=
  rewrite <- ?app_assoc; cbn [app];
  rewrite ?api_calls_app; cbn [Playback.api_calls app]; rewrite ?app_nil_r.

Lemma rem_nonneg a b : 0 <= a -> 0 < b -> Z.rem a b = a mod b.
Proof. intros Ha Hb. apply Z.rem_mod_nonneg; lia. Qed.

Section PlaybackProps.

Variable transport : list ApiCall -> ApiCall -> option Z.
Variable device_list : list ApiCall -> option (list Device).
Variable player_state : PlayerState.

Local Abbreviation handleNext := (Playback.handleNext transport).
Local Abbreviation handlePrev := (Playback.handlePrev transport).
Local Abbreviation onVolumeChange := (Playback.onVolumeChange transport).
Local Abbreviation handleSongClick :=
  (Playback.handleSongClick transport device_list player_state).
Local Abbreviation handlePlayPause := (Playback.handlePlayPause transport device_list).
Local Abbreviation calls := Playback.calls.

(** C6 (as the code has it). With a player, a stored token, a playlist of
    length [L > 0] and a current index [i >= 0]: when the provider fulfils
    the skip request, [handleNext] sets the index to [(i + 1) mod L] and
    [handlePrev] to [(i - 1 + L) mod L], wrapping in both directions; when
    the provider rejects the request, the index stays [i]. *)
Theorem skip_updates_index_on_success s i :
  let L := Z.of_nat (length (shuffledPlaylist s)) in
  player s = true ->
  Js.truthy (Playback.getItem "spotify_access_token" s) = true ->
  currentSongIndex s = Js.Int i ->
  0 <= i ->
  0 < L ->
  (transport (calls s) SkipToNext = None ->
   currentSongIndex (handleNext s) = Js.Int ((i + 1) mod L))
  /\ (transport (calls s) SkipToPrevious = None ->
      currentSongIndex (handlePrev s) = Js.Int ((i - 1 + L) mod L))
  /\ (forall status, transport (calls s) SkipToNext = Some status ->
      currentSongIndex (handleNext s) = Js.Int i)
  /\ (forall status, transport (calls s) SkipToPrevious = Some status ->
      currentSongIndex (handlePrev s) = Js.Int i).
Proof.
  intros L Hp Htok Hi Hi0 HL.
  apply truthy_inv in Htok as (token & Htok & Hne).
  unfold Playback.handleNext, Playback.handlePrev. rewrite Hp.
  rewrite !(if_truthy_true _ token) by assumption.
  unfold Playback.request, Playback.setAccessToken, Playback.calls.
  cbn -[Playback.api_calls].
  trace_norm.
  repeat split.
  - intros ->. cbn. rewrite Hi. cbn. fold L.
    destruct (Z.eqb_spec L 0); [lia|]. now rewrite rem_nonneg by lia.
  - intros ->. cbn. rewrite Hi. cbn. fold L.
    destruct (Z.eqb_spec L 0); [lia|]. now rewrite rem_nonneg by lia.
  - intros status ->. cbn. assumption.
  - intros status ->. cbn. assumption.
Qed.


(** C5 (as the code has it). When the play request of [handleSongClick]
    is answered 404, the handler records the requested track as selected,
    asks for the device list exactly once, and retries at most once: on the
    device flagged active in the fresh list, if there is one.  With no
    active device, or when the device query fails, nothing is retried.  A
    retry that fails is logged and not repeated. *)
Theorem handleSongClick_not_found index s token track state :
  let ds := Playback.getDeviceId device_list state (Playback.setAccessToken token s) in
  let deviceId := fst ds in
  let first_play := Play [Playback.track_uri track] deviceId in
  let before := calls (snd ds) ++ [first_play] in
  let s' := handleSongClick index s in
  player s = true ->
  Playback.getItem "spotify_access_token" s = Some token ->
  token <> "" ->
  Playback.track_at s index = Some track ->
  player_state = StateResolved state ->
  Js.truthy deviceId = true ->
  transport (calls (snd ds)) first_play = Some 404 ->
  currentSongIndex s' = Js.Int index
  /\ globalCurrentSongIndex s' = Js.Int index
  /\ match device_list before ≫= Playback.find_active with
     | Some device =>
         let retry := Play [Playback.track_uri track] (id device) in
         calls s' = before ++ [GetMyDevices; retry]
         /\ match transport (before ++ [GetMyDevices]) retry with
            | None => isPlaying s' = true
            | Some _ =>
                isPlaying s' = isPlaying (snd ds)
                /\ Observed.logged "Error playing on active device:" (events (world s')) = true
            end
     | None =>
         calls s' = before ++ [GetMyDevices]
         /\ isPlaying s' = isPlaying (snd ds)
     end.
Proof.
  intros ds deviceId first_play before s' Hp Htok Hne Htrack Hstate Hdev H404.
  unfold Playback.calls in *.
  assert (Hs' : s' = handleSongClick index s) by reflexivity. clearbody s'.
  unfold Playback.handleSongClick in Hs'.
  rewrite Hp, (if_truthy_true _ token) in Hs' by assumption.
  rewrite Htrack, Hstate in Hs'.
  fold ds in Hs'. destruct ds as [d s1] eqn:Hds. cbn [fst snd] in *. subst deviceId.
  rewrite Hdev in Hs'. unfold Playback.request at 1, Playback.calls at 1 in Hs'.
  fold first_play in Hs'. rewrite H404 in Hs'.
  change (404 =? 404) with true in Hs'. cbv iota in Hs'.
  unfold Playback.getMyDevices, Playback.request, Playback.calls, Playback.select,
    Playback.log, Playback.error in Hs'.
  cbn [world events Playback.on_world Playback.setCurrentSongIndex
       Playback.set_globalCurrentSongIndex emit] in Hs'.
  subst s' before first_play. cbv zeta. trace_norm.
  destruct (device_list _) as [devices|]; cbn [mbind option_bind].
  2:{ cbn -[Playback.api_calls]. trace_norm. auto. }
  destruct devices as [|d0 devices'].
  { change (0 <? Z.of_nat (length (@nil Device))) with false. cbv iota.
    cbn -[Playback.api_calls]. trace_norm. auto. }
  change (0 <? Z.of_nat (length (d0 :: devices'))) with true. cbv iota.
  destruct (Playback.find_active (d0 :: devices')) as [device|].
  2:{ cbn -[Playback.api_calls]. trace_norm. auto. }
  destruct (transport (Playback.api_calls (events (world s1)) ++
                         [Play [Playback.track_uri track] d; GetMyDevices])
                      (Play [Playback.track_uri track] (id device)));
    cbn -[Playback.api_calls Observed.logged]; trace_norm;
    rewrite ?logged_app; cbn [Observed.logged existsb]; rewrite ?String.eqb_refl;
    rewrite ?orb_true_r; auto.
Qed.

End PlaybackProps.

(** ** Further facts about the handlers *)

Section PlaybackMore.

Variable transport : list ApiCall -> ApiCall -> option Z.
Variable device_list : list ApiCall -> option (list Device).

Local Abbreviation handleNext := (Playback.handleNext transport).
Local Abbreviation handlePlayPause := (Playback.handlePlayPause transport device_list).
Local Abbreviation calls := Playback.calls.

(** What [handleNext] leaves alone. *)
Lemma handleNext_frame s :
  player (handleNext s) = player s
  /\ shuffledPlaylist (handleNext s) = shuffledPlaylist s
  /\ localStorage (world (handleNext s)) = localStorage (world s).
Proof.
  unfold Playback.handleNext.
  destruct (player s) eqn:Hp; [|auto].
  unfold Js.if_truthy.
  destruct (Playback.getItem _ s) as [token|]; [|auto].
  destruct (String.eqb token ""); [auto|].
  unfold Playback.request, Playback.setAccessToken, Playback.calls.
  cbn -[Playback.api_calls].
  destruct (transport _ _); cbn; auto.
Qed.

Lemma handleNext_fulfilled s i :
  let L := Z.of_nat (length (shuffledPlaylist s)) in
  player s = true ->
  Js.truthy (Playback.getItem "spotify_access_token" s) = true ->
  currentSongIndex s = Js.Int i ->
  0 <= i ->
  0 < L ->
  transport (calls s) SkipToNext = None ->
  currentSongIndex (handleNext s) = Js.Int ((i + 1) mod L).
Proof.
  intros L Hp Htok Hi Hi0 HL Hok.
  apply truthy_inv in Htok as (token & Htok & Hne).
  unfold Playback.handleNext. rewrite Hp, (if_truthy_true _ token) by assumption.
  unfold Playback.calls in Hok.
  unfold Playback.request, Playback.setAccessToken, Playback.calls.
  cbn -[Playback.api_calls].
  trace_norm. rewrite Hok. cbn. rewrite Hi. cbn. fold L.
  destruct (Z.eqb_spec L 0); [lia|]. now rewrite rem_nonneg by lia.
Qed.

(** When the provider fulfils every skip request, [n] presses of the next
    button move the index from [i] to [(i + n) mod L]. *)
Lemma handleNext_iter n s i :
  let L := Z.of_nat (length (shuffledPlaylist s)) in
  (forall history, transport history SkipToNext = None) ->
  player s = true ->
  Js.truthy (Playback.getItem "spotify_access_token" s) = true ->
  currentSongIndex s = Js.Int i ->
  0 <= i < L ->
  currentSongIndex (Nat.iter n handleNext s) = Js.Int ((i + Z.of_nat n) mod L)
  /\ player (Nat.iter n handleNext s) = true
  /\ shuffledPlaylist (Nat.iter n handleNext s) = shuffledPlaylist s
  /\ localStorage (world (Nat.iter n handleNext s)) = localStorage (world s).
Proof.
  intros L Hok Hp Htok Hi Hi0.
  induction n as [|n (IHi & IHp & IHl & IHs)].
  - change (Nat.iter 0 handleNext s) with s.
    rewrite Z.add_0_r, Z.mod_small by lia. auto.
  - rewrite !Nat.iter_succ.
    destruct (handleNext_frame (Nat.iter n handleNext s)) as (Fp & Fl & Fs).
    rewrite Fp, Fl, Fs. repeat split; try assumption.
    rewrite (handleNext_fulfilled _ ((i + Z.of_nat n) mod L)); try assumption.
    + rewrite IHl. fold L. rewrite Z.add_mod_idemp_l by lia. f_equal. f_equal. lia.
    + unfold Playback.getItem. now rewrite IHs.
    + apply Z.mod_pos_bound. lia.
    + rewrite IHl. fold L. lia.
    + apply Hok.
Qed.

(** When resuming is answered 404, [handlePlayPause] asks for the device
    list once and hands playback to the first listed device, if any; it
    makes no other request and does not touch the selected track. *)
Lemma handlePlayPause_not_found s :
  player s = true ->
  Js.truthy (Playback.getItem "spotify_access_token" s) = true ->
  isPlaying s = false ->
  transport (calls s) Resume = Some 404 ->
  currentSongIndex (handlePlayPause s) = currentSongIndex s
  /\ calls (handlePlayPause s) =
       calls s ++ [Resume; GetMyDevices] ++
         match device_list (calls s ++ [Resume]) with
         | Some (first :: _) => [TransferMyPlayback [id first] true]
         | _ => []
         end.
Proof.
  intros Hp Htok Hplay H404. unfold Playback.calls in *.
  apply truthy_inv in Htok as (token & Htok & Hne).
  unfold Playback.handlePlayPause.
  rewrite Hp, (if_truthy_true _ token) by assumption.
  change (isPlaying (Playback.setAccessToken token s)) with (isPlaying s). rewrite Hplay.
  unfold Playback.getMyDevices, Playback.request, Playback.calls,
    Playback.setAccessToken, Playback.log, Playback.error.
  cbn [world events Playback.on_world emit]. trace_norm. rewrite H404.
  change (404 =? 404) with true. cbv iota.
  destruct (device_list _) as [[|first rest]|]; cbn -[Playback.api_calls];
    trace_norm; auto.
  destruct (transport _ (TransferMyPlayback _ _)); cbn -[Playback.api_calls];
    trace_norm; auto.
Qed.

End PlaybackMore.

(** C6, refuted as stated: when the provider rejects the skip request the
    index is not moved, neither forwards nor backwards. *)
Lemma skip_failure_counterexample :
  currentSongIndex (Playback.handleNext Examples.provider_unavailable Examples.music_window)
    = Js.Int 0
  /\ (0 + 1) mod 3 = 1
  /\ currentSongIndex (Playback.handlePrev Examples.provider_unavailable Examples.music_window)
     = Js.Int 0
  /\ (0 - 1 + 3) mod 3 = 2.
Proof. repeat split; vm_compute; reflexivity. Qed.

Lemma skip_updates_index_on_success_witness :
  currentSongIndex (Playback.handleNext Examples.provider_ok Examples.music_window_last)
    = Js.Int ((2 + 1) mod 3)
  /\ currentSongIndex (Playback.handlePrev Examples.provider_ok Examples.music_window_last)
     = Js.Int ((2 - 1 + 3) mod 3).
Proof.
  pose proof (skip_updates_index_on_success Examples.provider_ok Examples.music_window_last 2
                eq_refl eq_refl eq_refl ltac:(lia) ltac:(cbn; lia)) as (Hnext & Hprev & _).
  split; [apply Hnext | apply Hprev]; reflexivity.
Defined.



(** C5, refuted as stated: the play request is answered 404 and the fresh
    device list holds one device that is not flagged active.  The stated
    [resolveActiveDevice] yields that device, so a retry on it is due; the
    code asks for the list and retries nothing. *)
Lemma handleSongClick_no_retry_counterexample :
  Spec.resolveActiveDevice [Examples.inactive_device] = Some Examples.inactive_device
  /\ Playback.calls
       (Playback.handleSongClick Examples.provider_not_found
          Examples.only_inactive (StateResolved (Some "dev0")) 1 Examples.music_window)
     = [Play ["spotify:track:t1"] (Some "dev0"); GetMyDevices]
  /\ currentSongIndex (Playback.handleSongClick Examples.provider_not_found
                         Examples.only_inactive (StateResolved (Some "dev0"))
                         1 Examples.music_window)
     = Js.Int 1.
Proof. repeat split; vm_compute; reflexivity. Qed.

Lemma handleSongClick_not_found_witness :
  let s' := Playback.handleSongClick Examples.provider_not_found Examples.one_active
              (StateResolved (Some "dev0")) 1 Examples.music_window in
  currentSongIndex s' = Js.Int 1
  /\ globalCurrentSongIndex s' = Js.Int 1
  /\ Playback.calls s'
     = [Play ["spotify:track:t1"] (Some "dev0")] ++
       [GetMyDevices; Play ["spotify:track:t1"] (Some "dev2")]
  /\ isPlaying s' = false
  /\ Observed.logged "Error playing on active device:" (events (world s')) = true.
Proof.
  exact (handleSongClick_not_found Examples.provider_not_found Examples.one_active
           (StateResolved (Some "dev0")) 1 Examples.music_window "tok1"
           (mkTrack "t1" "one") (Some "dev0")
           eq_refl eq_refl ltac:(discriminate) eq_refl eq_refl eq_refl eq_refl).
Defined.
